(** * wire/error.go: message error codes and the MessageError value

    A shallow embedding of package [wire]'s error taxonomy.

    - [ErrorCode] is Go's [type ErrorCode int]; its values are written as
      integers of [Z].  The package performs no arithmetic on them, so no
      wrap-around is involved: codes are only compared and printed.
    - A Go [string] is a sequence of bytes, here [string] of the Standard
      Library (a list of 8-bit characters).
    - [*MessageError] is a pointer that may be nil: [option MessageError],
      with [None] for nil.  The structs are never mutated after they are
      built, so a pointer is modelled by the struct it points to.
    - A field read through a nil pointer stops the program with a run-time
      panic.  Methods therefore return a [result]: [Ok v] for a normal
      return, [Panic msg] for the run-time fault.
    - A value of the interface type [error] is nil or a dynamic type with
      its value: the inductive type [error] below. *)

From Stdlib Require Import ZArith String Ascii DecimalString.
From Stdlib Require DecimalPos DecimalZ.
From stdpp Require Import base option numbers strings gmap.

Local Open Scope string_scope.
Local Open Scope Z_scope.

(** ** Normal return or run-time panic *)

Inductive result (A : Type) : Type :=
| Ok (a : A)
| Panic (msg : string).

Arguments Ok {A} a.
Arguments Panic {A} msg.

#[global] Instance result_ret : MRet result := fun _ a => Ok a.

#[global] Instance result_bind : MBind result := fun _ _ k r =>
  match r with
  | Ok a => k a
  | Panic msg => Panic msg
  end.

Definition returns {A : Type} (r : result A) : bool :=
  match r with
  | Ok _ => true
  | Panic _ => false
  end.

(** The text Go's run-time gives to a read through a nil pointer. *)
Definition nil_dereference : string :=
  "runtime error: invalid memory address or nil pointer dereference".

(** [p.field] starts by loading through [p]. *)
Definition deref {A : Type} (p : option A) : result A :=
  match p with
  | Some a => Ok a
  | None => Panic nil_dereference
  end.

(** ** The two [fmt] verbs the package uses

    [%v] applied to a string operand prints the string unchanged; [%d]
    applied to an int prints its decimal numeral, with a leading minus
    sign when negative. *)

Definition fmt_v (s : string) : string := s.

Definition fmt_d (n : Z) : string := NilZero.string_of_int (Z.to_int n).

(** ** ErrorCode *)

Definition ErrorCode : Type := Z.

(** The constant block: [ErrVarBytesTooLong ErrorCode = iota] and the
    seven implicit repetitions that follow it. *)
Definition ErrVarBytesTooLong : ErrorCode := 0.
Definition ErrMsgInvalidForPVer : ErrorCode := 1.
Definition ErrInvalidMsg : ErrorCode := 2.
Definition ErrMalformedStrictString : ErrorCode := 3.
Definition ErrTooManyManyMixPairReqs : ErrorCode := 4.
Definition ErrMixPairReqScriptClassTooLong : ErrorCode := 5.
Definition ErrTooManyMixPairReqUTXOs : ErrorCode := 6.
Definition ErrTooManyPrevMixMsgs : ErrorCode := 7.

(** Map of ErrorCode values back to their constant names. *)
Definition errorCodeStrings : gmap Z string :=
  <[ErrTooManyManyMixPairReqs := "ErrTooManyManyMixPairReqs"]>
  (<[ErrMixPairReqScriptClassTooLong := "ErrMixPairReqScriptClassTooLong"]>
  (<[ErrTooManyMixPairReqUTXOs := "ErrTooManyMixPairReqUTXOs"]>
  (<[ErrTooManyPrevMixMsgs := "ErrTooManyPrevMixMsgs"]> ∅))).

(** The keys of the naming table. *)
Definition registered : list ErrorCode :=
  [ErrTooManyManyMixPairReqs; ErrMixPairReqScriptClassTooLong;
   ErrTooManyMixPairReqUTXOs; ErrTooManyPrevMixMsgs].

(** [m[k]] on a Go map of strings: the zero value [""] for a missing key. *)
Definition map_index (m : gmap Z string) (k : Z) : string :=
  default "" (m !! k).

(** [func (e ErrorCode) String() string] *)
Definition ErrorCode_String (e : ErrorCode) : string :=
  let s := map_index errorCodeStrings e in
  if negb (String.eqb s "") then s
  else "Unknown ErrorCode (" +:+ fmt_d e +:+ ")".

(** [func (e ErrorCode) Error() string] *)
Definition ErrorCode_Error (e : ErrorCode) : string := ErrorCode_String e.

(** ** MessageError *)

Module MessageError.

Record t : Type := mk {
  Func : string;
  ErrorCode : ErrorCode;
  Description : string
}.

End MessageError.

Abbreviation MessageError := MessageError.t.

(** ** The interface type [error]

    The dynamic types this package gives to an [error] are [*MessageError]
    and [ErrorCode]; any other implementation of the interface is kept as
    the name of its dynamic type and its message. *)
Inductive error : Type :=
| error_nil
| error_MessageError (p : option MessageError)
| error_ErrorCode (c : ErrorCode)
| error_other (dynamic_type : string) (message : string).

(** A target whose dynamic type is neither [*MessageError] nor
    [ErrorCode]; the nil interface value has no dynamic type at all. *)
Definition unrelated_shape (target : error) : bool :=
  match target with
  | error_MessageError _ | error_ErrorCode _ => false
  | error_nil | error_other _ _ => true
  end.

(** [func (e ErrorCode) Is(target error) bool] *)
Definition ErrorCode_Is (e : ErrorCode) (target : error) : result bool :=
  match target with
  | error_MessageError p =>
      target ← deref p;
      mret (e =? MessageError.ErrorCode target)
  | error_ErrorCode target =>
      mret (e =? target)
  | _ => mret false
  end.

(** [func (e *MessageError) Error() string] *)
Definition MessageError_Error (e : option MessageError) : result string :=
  e ← deref e;
  if negb (String.eqb (MessageError.Func e) "")
  then mret (fmt_v (MessageError.Func e) +:+ ": "
             +:+ fmt_v (MessageError.Description e))
  else mret (MessageError.Description e).

(** [func messageError(f string, desc string) *MessageError]: the field
    left out of the composite literal takes the zero value of its type. *)
Definition messageError (f desc : string) : option MessageError :=
  Some (MessageError.mk f 0 desc).

(** [func messageErrorWithCode(funcName string, c ErrorCode, desc string)
    *MessageError] *)
Definition messageErrorWithCode (funcName : string) (c : ErrorCode)
    (desc : string) : option MessageError :=
  Some (MessageError.mk funcName c desc).

(** [func (e *MessageError) Is(target error) bool]; the left operand of
    [==] is evaluated before the right one. *)
Definition MessageError_Is (e : option MessageError) (target : error)
    : result bool :=
  match target with
  | error_MessageError p =>
      e ← deref e;
      target ← deref p;
      mret (MessageError.ErrorCode e =? MessageError.ErrorCode target)
  | error_ErrorCode target =>
      e ← deref e;
      mret (target =? MessageError.ErrorCode e)
  | _ => mret false
  end.

(** [func (e *MessageError) Unwrap() error]: the code is returned as an
    [error] whose dynamic type is [ErrorCode]. *)
Definition MessageError_Unwrap (e : option MessageError) : result error :=
  e ← deref e;
  mret (error_ErrorCode (MessageError.ErrorCode e)).

(** * Properties *)

(** Unfolds the sequencing of [result] so that a method body reduces to
    the value it returns or to the panic it raises. *)
Ltac run :=
  unfold ErrorCode_Is, MessageError_Is, MessageError_Error,
    MessageError_Unwrap, messageError, messageErrorWithCode, deref;
  unfold mbind, mret, result_bind, result_ret; cbn.

(** ** Printing *)

(** [fmt_d] is the numeral of its operand: read back as a decimal
    number, the text gives the operand again. *)
Lemma fmt_d_reads_back (n : Z) :
  Z.of_int <$> NilZero.int_of_string (fmt_d n) = Some n.
Proof.
  unfold fmt_d.
  rewrite NilZero.isi.
  - cbn. f_equal. apply DecimalZ.of_to.
  - destruct n as [|p|p]; cbn; try discriminate.
    intros [= H]. now apply DecimalPos.Unsigned.to_uint_nonnil in H.
  - destruct n as [|p|p]; cbn; try discriminate.
    intros [= H]. now apply DecimalPos.Unsigned.to_uint_nonnil in H.
Qed.

Lemma errorCodeStrings_unregistered (e : ErrorCode) :
  e ∉ registered -> errorCodeStrings !! e = None.
Proof.
  unfold registered, errorCodeStrings. intros Hnot.
  repeat (rewrite lookup_insert_ne; [| intros <-; apply Hnot; set_solver]).
  apply lookup_empty.
Qed.

Lemma map_index_unregistered (e : ErrorCode) :
  e ∉ registered -> map_index errorCodeStrings e = "".
Proof.
  intros Hnot. unfold map_index.
  now rewrite errorCodeStrings_unregistered.
Qed.

Lemma ErrorCode_String_nonempty (e : ErrorCode) : ErrorCode_String e <> "".
Proof.
  unfold ErrorCode_String. cbv zeta.
  destruct (String.eqb (map_index errorCodeStrings e) "") eqn:Hs; cbn.
  - discriminate.
  - now apply String.eqb_neq.
Qed.

(** C3. Rendering an ErrorCode never yields the empty string; each of the
    four codes of the naming table renders as its registered name; and
    every other code, the four unnamed constants among them, renders as
    the fall-back text around its decimal ordinal. *)
Theorem ErrorCode_String_renders :
  (forall e : ErrorCode, ErrorCode_String e <> "") /\
  ErrorCode_String ErrTooManyManyMixPairReqs = "ErrTooManyManyMixPairReqs" /\
  ErrorCode_String ErrMixPairReqScriptClassTooLong
    = "ErrMixPairReqScriptClassTooLong" /\
  ErrorCode_String ErrTooManyMixPairReqUTXOs = "ErrTooManyMixPairReqUTXOs" /\
  ErrorCode_String ErrTooManyPrevMixMsgs = "ErrTooManyPrevMixMsgs" /\
  (forall e : ErrorCode, e ∉ registered ->
     ErrorCode_String e = "Unknown ErrorCode (" +:+ fmt_d e +:+ ")") /\
  ErrorCode_String ErrVarBytesTooLong = "Unknown ErrorCode (0)" /\
  ErrorCode_String ErrMsgInvalidForPVer = "Unknown ErrorCode (1)" /\
  ErrorCode_String ErrInvalidMsg = "Unknown ErrorCode (2)" /\
  ErrorCode_String ErrMalformedStrictString = "Unknown ErrorCode (3)".
Proof.
  split; [exact ErrorCode_String_nonempty |].
  do 4 (split; [vm_compute; reflexivity |]).
  split; [| repeat split; vm_compute; reflexivity].
  intros e Hnot. unfold ErrorCode_String.
  now rewrite map_index_unregistered.
Qed.

Lemma ErrorCode_String_renders_witness :
  ((-1) ∉ registered) /\ ErrorCode_String (-1) = "Unknown ErrorCode (-1)".
Proof.
  assert (Hnot : (-1) ∉ registered).
  { unfold registered. intros Hin. repeat (apply elem_of_cons in Hin as [Hin | Hin]; [discriminate Hin |]). inversion Hin. }
  split; [exact Hnot |].
  exact (proj1 (proj2 (proj2 (proj2 (proj2 (proj2 ErrorCode_String_renders)))))
           (-1) Hnot).
Defined.

(** C4. Rendering a MessageError returns, and what it returns depends on
    the function name and the description alone: the name, a colon, a
    space and the description when the name is not empty, and the bare
    description when it is. *)
Theorem MessageError_Error_renders (f d : string) (c : ErrorCode) :
  (f <> "" ->
   MessageError_Error (Some (MessageError.mk f c d)) = Ok (f +:+ ": " +:+ d)) /\
  (f = "" -> MessageError_Error (Some (MessageError.mk f c d)) = Ok d).
Proof.
  run. split.
  - intros Hf. apply String.eqb_neq in Hf. now rewrite Hf.
  - now intros ->.
Qed.

Lemma MessageError_Error_renders_witness :
  MessageError_Error (messageErrorWithCode "decodeFoo"
    ErrTooManyManyMixPairReqs "exceeds max") = Ok "decodeFoo: exceeds max" /\
  MessageError_Error (messageError "" "bad thing") = Ok "bad thing".
Proof.
  split.
  - apply (proj1 (MessageError_Error_renders "decodeFoo" "exceeds max"
                    ErrTooManyManyMixPairReqs)).
    discriminate.
  - apply (proj2 (MessageError_Error_renders "" "bad thing" 0)).
    reflexivity.
Defined.

(** C8. The rendered text does not depend on the category carried: two
    errors that differ in their code only render alike. *)
Theorem MessageError_Error_hides_code (f d : string) (c1 c2 : ErrorCode) :
  MessageError_Error (messageErrorWithCode f c1 d)
  = MessageError_Error (messageErrorWithCode f c2 d).
Proof. reflexivity. Qed.

(** ** Categorical matching *)

Lemma ErrorCode_Is_code (e c : ErrorCode) :
  ErrorCode_Is e (error_ErrorCode c) = Ok (e =? c).
Proof. reflexivity. Qed.

Lemma ErrorCode_Is_pointer (e : ErrorCode) (m : MessageError) :
  ErrorCode_Is e (error_MessageError (Some m))
  = Ok (e =? MessageError.ErrorCode m).
Proof. reflexivity. Qed.

Lemma MessageError_Is_code (m : MessageError) (c : ErrorCode) :
  MessageError_Is (Some m) (error_ErrorCode c)
  = Ok (c =? MessageError.ErrorCode m).
Proof. reflexivity. Qed.

Lemma MessageError_Is_pointer (m1 m2 : MessageError) :
  MessageError_Is (Some m1) (error_MessageError (Some m2))
  = Ok (MessageError.ErrorCode m1 =? MessageError.ErrorCode m2).
Proof. reflexivity. Qed.

Create Rewrite HintDb wire_is.
#[local] Hint Rewrite ErrorCode_Is_code ErrorCode_Is_pointer
  MessageError_Is_code MessageError_Is_pointer Z.eqb_refl : wire_is.

(** C1. An error built with a category matches that bare category, and
    matches any other error built with the same category, whatever their
    function names and descriptions are. *)
Theorem Is_same_category (c : ErrorCode) (f d f' d' : string) :
  MessageError_Is (messageErrorWithCode f c d) (error_ErrorCode c) = Ok true /\
  MessageError_Is (messageErrorWithCode f c d)
    (error_MessageError (messageErrorWithCode f' c d')) = Ok true.
Proof.
  unfold messageErrorWithCode. autorewrite with wire_is.
  split; reflexivity.
Qed.

(** C2. Distinct categories never match, in any of the four pairings of
    a bare code or a MessageError on the left with a bare code or a
    MessageError on the right. *)
Theorem Is_distinct_categories (A B : ErrorCode) (f d f' d' : string) :
  A <> B ->
  MessageError_Is (messageErrorWithCode f A d) (error_ErrorCode B) = Ok false /\
  MessageError_Is (messageErrorWithCode f A d)
    (error_MessageError (messageErrorWithCode f' B d')) = Ok false /\
  ErrorCode_Is A (error_ErrorCode B) = Ok false /\
  ErrorCode_Is A (error_MessageError (messageErrorWithCode f' B d')) = Ok false.
Proof.
  intros Hne. unfold messageErrorWithCode. autorewrite with wire_is. cbn.
  assert (HAB : (A =? B) = false) by now apply Z.eqb_neq.
  assert (HBA : (B =? A) = false) by (apply Z.eqb_neq; congruence).
  now rewrite HAB, HBA.
Qed.

Lemma Is_distinct_categories_witness :
  MessageError_Is (messageErrorWithCode "f" ErrInvalidMsg "d")
    (error_ErrorCode ErrTooManyPrevMixMsgs) = Ok false /\
  MessageError_Is (messageErrorWithCode "f" ErrInvalidMsg "d")
    (error_MessageError (messageErrorWithCode "g" ErrTooManyPrevMixMsgs "e"))
    = Ok false /\
  ErrorCode_Is ErrInvalidMsg (error_ErrorCode ErrTooManyPrevMixMsgs)
    = Ok false /\
  ErrorCode_Is ErrInvalidMsg
    (error_MessageError (messageErrorWithCode "g" ErrTooManyPrevMixMsgs "e"))
    = Ok false.
Proof.
  apply (Is_distinct_categories ErrInvalidMsg ErrTooManyPrevMixMsgs).
  discriminate.
Defined.

(** C9. Matching is symmetric across the two shapes: a code against a
    MessageError gives what that MessageError gives against the code, two
    MessageErrors give the same answer in either order, and each answer
    is the equality of the two codes involved. *)
Theorem Is_symmetric (c : ErrorCode) (m m1 m2 : MessageError) :
  ErrorCode_Is c (error_MessageError (Some m))
  = MessageError_Is (Some m) (error_ErrorCode c) /\
  ErrorCode_Is c (error_MessageError (Some m))
  = Ok (c =? MessageError.ErrorCode m) /\
  MessageError_Is (Some m1) (error_MessageError (Some m2))
  = MessageError_Is (Some m2) (error_MessageError (Some m1)) /\
  MessageError_Is (Some m1) (error_MessageError (Some m2))
  = Ok (MessageError.ErrorCode m1 =? MessageError.ErrorCode m2).
Proof.
  autorewrite with wire_is. repeat split.
  f_equal. apply Z.eqb_sym.
Qed.

(** C7. A target that is neither a [*MessageError] nor an [ErrorCode]
    (the nil interface value included) is answered with [false] by both
    match operations; neither of them faults, even on a nil receiver. *)
Theorem Is_unrelated_shape (c : ErrorCode) (e : option MessageError)
    (target : error) :
  unrelated_shape target = true ->
  ErrorCode_Is c target = Ok false /\ MessageError_Is e target = Ok false.
Proof.
  destruct target as [| p | c' | ty msg]; cbn; intros Hshape;
    try discriminate Hshape; split; reflexivity.
Qed.

Lemma Is_unrelated_shape_witness :
  ErrorCode_Is ErrInvalidMsg (error_other "*errors.errorString" "EOF")
    = Ok false /\
  MessageError_Is (messageError "readElement" "short read")
    (error_other "*errors.errorString" "EOF") = Ok false.
Proof.
  apply (Is_unrelated_shape ErrInvalidMsg
           (messageError "readElement" "short read")
           (error_other "*errors.errorString" "EOF")).
  reflexivity.
Defined.

(** ** Unwrapping and the zero category *)

(** C5. Unwrap gives back the category an error was built with, as an
    [error] that is not nil; an error built without a category unwraps
    to the zero code. *)
Theorem Unwrap_returns_code (f d : string) (c : ErrorCode) :
  MessageError_Unwrap (messageErrorWithCode f c d) = Ok (error_ErrorCode c) /\
  MessageError_Unwrap (messageErrorWithCode f c d) <> Ok error_nil /\
  MessageError_Unwrap (messageError f d) = Ok (error_ErrorCode 0) /\
  MessageError_Unwrap (messageError f d) <> Ok error_nil.
Proof. run. repeat split; discriminate. Qed.

(** C6. An error built without a category carries code 0, which is
    ErrVarBytesTooLong; no target, no receiver and no call of Unwrap
    tells it from an error built with ErrVarBytesTooLong explicitly. *)
Theorem messageError_is_ErrVarBytesTooLong (f d f' d' : string) :
  MessageError.ErrorCode <$> messageError f d = Some ErrVarBytesTooLong /\
  ErrVarBytesTooLong = 0 /\
  (forall target : error,
     MessageError_Is (messageError f d) target
     = MessageError_Is (messageErrorWithCode f' ErrVarBytesTooLong d') target) /\
  (forall e : ErrorCode,
     ErrorCode_Is e (error_MessageError (messageError f d))
     = ErrorCode_Is e
         (error_MessageError (messageErrorWithCode f' ErrVarBytesTooLong d'))) /\
  (forall e : option MessageError,
     MessageError_Is e (error_MessageError (messageError f d))
     = MessageError_Is e
         (error_MessageError (messageErrorWithCode f' ErrVarBytesTooLong d'))) /\
  MessageError_Unwrap (messageError f d)
  = MessageError_Unwrap (messageErrorWithCode f' ErrVarBytesTooLong d').
Proof.
  split; [reflexivity |]. split; [reflexivity |].
  split; [intros [| p | c | ty msg]; reflexivity |].
  split; [intros e; reflexivity |].
  split; [intros [m |]; reflexivity | reflexivity].
Qed.

(** ** Nil pointers *)

Lemma ErrorCode_Is_nil_target (c : ErrorCode) :
  ErrorCode_Is c (error_MessageError None) = Panic nil_dereference.
Proof. reflexivity. Qed.

Lemma MessageError_Is_nil_target (e : option MessageError) :
  MessageError_Is e (error_MessageError None) = Panic nil_dereference.
Proof. destruct e; reflexivity. Qed.

Lemma MessageError_Is_nil_receiver (target : error) :
  unrelated_shape target = false ->
  MessageError_Is None target = Panic nil_dereference.
Proof. destruct target; cbn; intros H; try discriminate H; reflexivity. Qed.

(** C10, as stated, fails: with no nil [*MessageError] among the targets,
    MessageError.Is still faults when its receiver is the nil pointer and
    the target is a bare code. *)
Lemma MessageError_Is_nil_receiver_faults :
  error_ErrorCode ErrVarBytesTooLong <> error_MessageError None /\
  MessageError_Is None (error_ErrorCode ErrVarBytesTooLong)
    = Panic nil_dereference /\
  ~ (forall (e : option MessageError) (target : error),
       target <> error_MessageError None ->
       returns (MessageError_Is e target) = true).
Proof.
  split; [discriminate |]. split; [reflexivity |].
  intros Hall.
  specialize (Hall None (error_ErrorCode ErrVarBytesTooLong)).
  cbn in Hall. discriminate Hall. discriminate.
Qed.

(** C10, amended. Neither match operation guards the read of the
    target's code: a nil [*MessageError] target makes both of them fault
    with a nil dereference instead of answering [false].  With a target
    that is not a nil [*MessageError], ErrorCode.Is returns, and so does
    MessageError.Is provided its receiver is not nil either. *)
Theorem Is_returns_unless_nil (c : ErrorCode) (e : option MessageError)
    (target : error) :
  (target <> error_MessageError None ->
     returns (ErrorCode_Is c target) = true /\
     (e <> None -> returns (MessageError_Is e target) = true)) /\
  ErrorCode_Is c (error_MessageError None) = Panic nil_dereference /\
  MessageError_Is e (error_MessageError None) = Panic nil_dereference.
Proof.
  split; [| split; [apply ErrorCode_Is_nil_target
                   | apply MessageError_Is_nil_target]].
  intros Htarget. split.
  - destruct target as [| [m |] | c' | ty msg]; try reflexivity.
    now contradict Htarget.
  - intros He. destruct e as [m |]; [| now contradict He].
    destruct target as [| [m' |] | c' | ty msg]; try reflexivity.
    now contradict Htarget.
Qed.

Lemma Is_returns_unless_nil_witness :
  returns (ErrorCode_Is ErrInvalidMsg
             (error_MessageError (messageError "f" "d"))) = true /\
  returns (MessageError_Is (messageErrorWithCode "g" ErrInvalidMsg "e")
             (error_MessageError (messageError "f" "d"))) = true.
Proof.
  pose proof (proj1 (Is_returns_unless_nil ErrInvalidMsg
                (messageErrorWithCode "g" ErrInvalidMsg "e")
                (error_MessageError (messageError "f" "d")))) as H.
  destruct H as [Hc Hm]; [discriminate |].
  split; [exact Hc | apply Hm; discriminate].
Defined.

(** * Further properties of the package *)

(** ** Strings *)

Lemma append_cons (a : ascii) (s t : string) :
  String a s +:+ t = String a (s +:+ t).
Proof. reflexivity. Qed.

Lemma append_assoc (s t u : string) : (s +:+ t) +:+ u = s +:+ t +:+ u.
Proof.
  induction s as [| a s IH]; [reflexivity |].
  now rewrite !append_cons, IH.
Qed.

Lemma append_empty_iff (s t : string) : s +:+ t = "" <-> s = "" /\ t = "".
Proof.
  split.
  - destruct s; [intros H; split; [reflexivity | exact H] | discriminate].
  - now intros [-> ->].
Qed.

Lemma list_ascii_of_append (s t : string) :
  list_ascii_of_string (s +:+ t)
  = (list_ascii_of_string s ++ list_ascii_of_string t)%list.
Proof.
  induction s as [| a s IH]; [reflexivity |].
  rewrite append_cons. cbn. now rewrite IH.
Qed.

Lemma append_inv_tail (s1 s2 t : string) : s1 +:+ t = s2 +:+ t -> s1 = s2.
Proof.
  intros H. apply (f_equal list_ascii_of_string) in H.
  rewrite !list_ascii_of_append in H. apply app_inv_tail in H.
  rewrite <- (string_of_list_ascii_of_string s1).
  rewrite <- (string_of_list_ascii_of_string s2).
  now rewrite H.
Qed.

Lemma fmt_d_inj (n1 n2 : Z) : fmt_d n1 = fmt_d n2 -> n1 = n2.
Proof.
  intros H. pose proof (fmt_d_reads_back n1) as H1.
  rewrite H, fmt_d_reads_back in H1. congruence.
Qed.

(** ** The text of a code *)

Lemma registered_cases (e : ErrorCode) :
  e ∈ registered ->
  e = ErrTooManyManyMixPairReqs \/ e = ErrMixPairReqScriptClassTooLong \/
  e = ErrTooManyMixPairReqUTXOs \/ e = ErrTooManyPrevMixMsgs.
Proof.
  unfold registered. rewrite !elem_of_cons, elem_of_nil. tauto.
Qed.

Lemma ErrorCode_String_fallback (e : ErrorCode) :
  e ∉ registered ->
  ErrorCode_String e = "Unknown ErrorCode (" +:+ fmt_d e +:+ ")".
Proof.
  intros Hnot. unfold ErrorCode_String. now rewrite map_index_unregistered.
Qed.

Lemma ErrorCode_String_inj (e1 e2 : ErrorCode) :
  ErrorCode_String e1 = ErrorCode_String e2 -> e1 = e2.
Proof.
  destruct (decide (e1 ∈ registered)) as [H1 | H1];
    destruct (decide (e2 ∈ registered)) as [H2 | H2].
  - apply registered_cases in H1, H2.
    destruct H1 as [-> | [-> | [-> | ->]]];
      destruct H2 as [-> | [-> | [-> | ->]]];
      vm_compute; intros H; first [reflexivity | discriminate H].
  - rewrite (ErrorCode_String_fallback e2 H2).
    apply registered_cases in H1.
    destruct H1 as [-> | [-> | [-> | ->]]]; discriminate.
  - rewrite (ErrorCode_String_fallback e1 H1).
    apply registered_cases in H2.
    destruct H2 as [-> | [-> | [-> | ->]]]; discriminate.
  - rewrite (ErrorCode_String_fallback e1 H1), (ErrorCode_String_fallback e2 H2).
    intros H. apply (inj (String.append _)) in H.
    now apply append_inv_tail, fmt_d_inj in H.
Qed.

(** X1. The text of a code identifies it: two different codes, named in
    the table or not, never have the same error text. *)
Theorem ErrorCode_Error_distinct (e1 e2 : ErrorCode) :
  e1 <> e2 -> ErrorCode_Error e1 <> ErrorCode_Error e2.
Proof.
  intros Hne Heq. apply Hne. now apply ErrorCode_String_inj.
Qed.

Lemma ErrorCode_Error_distinct_witness :
  ErrorCode_Error ErrVarBytesTooLong <> ErrorCode_Error ErrTooManyPrevMixMsgs.
Proof.
  apply (ErrorCode_Error_distinct ErrVarBytesTooLong ErrTooManyPrevMixMsgs).
  discriminate.
Defined.

(** X2. Matching a code against a bare code, or against a MessageError
    that is not nil, answers whether the two codes involved have the
    same text: comparing categories and comparing their names agree. *)
Theorem ErrorCode_Is_agrees_with_String (e c : ErrorCode) (m : MessageError) :
  ErrorCode_Is e (error_ErrorCode c)
  = Ok (String.eqb (ErrorCode_String e) (ErrorCode_String c)) /\
  ErrorCode_Is e (error_MessageError (Some m))
  = Ok (String.eqb (ErrorCode_String e)
          (ErrorCode_String (MessageError.ErrorCode m))).
Proof.
  assert (Hname : forall a b : ErrorCode,
    (a =? b) = String.eqb (ErrorCode_String a) (ErrorCode_String b)).
  { intros a b. destruct (Z.eqb_spec a b) as [-> | Hne].
    - now rewrite String.eqb_refl.
    - symmetry. apply String.eqb_neq. intros Heq.
      now apply ErrorCode_String_inj in Heq. }
  autorewrite with wire_is. now rewrite !Hname.
Qed.

(** X3. Unwrapping adds nothing to matching: a MessageError that is not
    nil unwraps to a bare code, and on every target (a nil one included,
    where both fault) that code answers as the MessageError itself. *)
Theorem Is_through_Unwrap (m : MessageError) (target : error) :
  exists c : ErrorCode,
    MessageError_Unwrap (Some m) = Ok (error_ErrorCode c) /\
    MessageError_Is (Some m) target = ErrorCode_Is c target.
Proof.
  exists (MessageError.ErrorCode m). split; [reflexivity |].
  destruct target as [| [m' |] | c' | ty msg]; try reflexivity.
  run. f_equal. apply Z.eqb_sym.
Qed.

Lemma Is_true_pointer (e : option MessageError) (p : option MessageError) :
  MessageError_Is e (error_MessageError p) = Ok true ->
  exists m m', e = Some m /\ p = Some m' /\
    MessageError.ErrorCode m = MessageError.ErrorCode m'.
Proof.
  destruct e as [m |], p as [m' |]; run; intros H; try discriminate H.
  exists m, m'. repeat split. injection H as H. now apply Z.eqb_eq.
Qed.

Lemma Is_true_code (e : option MessageError) (c : ErrorCode) :
  MessageError_Is e (error_ErrorCode c) = Ok true ->
  exists m, e = Some m /\ MessageError.ErrorCode m = c.
Proof.
  destruct e as [m |]; run; intros H; try discriminate H.
  exists m. split; [reflexivity |]. injection H as H.
  symmetry. now apply Z.eqb_eq.
Qed.

Lemma ErrorCode_Is_true_pointer (a : ErrorCode) (p : option MessageError) :
  ErrorCode_Is a (error_MessageError p) = Ok true ->
  exists m, p = Some m /\ MessageError.ErrorCode m = a.
Proof.
  destruct p as [m |]; run; intros H; try discriminate H.
  exists m. split; [reflexivity |]. injection H as H.
  symmetry. now apply Z.eqb_eq.
Qed.

(** X4. Matching is transitive across the two shapes: whenever a first
    value matches a second and the second matches a third, the first
    matches the third, for codes and MessageError pointers in any of
    these orders. *)
Theorem Is_transitive (a b : ErrorCode) (p1 p2 p3 : option MessageError) :
  (MessageError_Is p1 (error_MessageError p2) = Ok true ->
   MessageError_Is p2 (error_MessageError p3) = Ok true ->
   MessageError_Is p1 (error_MessageError p3) = Ok true) /\
  (ErrorCode_Is a (error_MessageError p1) = Ok true ->
   MessageError_Is p1 (error_MessageError p2) = Ok true ->
   ErrorCode_Is a (error_MessageError p2) = Ok true) /\
  (ErrorCode_Is a (error_MessageError p1) = Ok true ->
   MessageError_Is p1 (error_ErrorCode b) = Ok true ->
   ErrorCode_Is a (error_ErrorCode b) = Ok true) /\
  (MessageError_Is p1 (error_ErrorCode a) = Ok true ->
   ErrorCode_Is a (error_MessageError p2) = Ok true ->
   MessageError_Is p1 (error_MessageError p2) = Ok true).
Proof.
  repeat split.
  - intros (m1 & m2 & -> & -> & H12)%Is_true_pointer
           (m2' & m3 & [= <-] & -> & H23)%Is_true_pointer.
    autorewrite with wire_is. f_equal. apply Z.eqb_eq. congruence.
  - intros (m1 & -> & Ha)%ErrorCode_Is_true_pointer
           (m1' & m2 & [= <-] & -> & H12)%Is_true_pointer.
    autorewrite with wire_is. f_equal. apply Z.eqb_eq. congruence.
  - intros (m1 & -> & Ha)%ErrorCode_Is_true_pointer
           (m1' & [= <-] & Hb)%Is_true_code.
    autorewrite with wire_is. f_equal. apply Z.eqb_eq. congruence.
  - intros (m1 & -> & Ha)%Is_true_code
           (m2 & -> & Hb)%ErrorCode_Is_true_pointer.
    autorewrite with wire_is. f_equal. apply Z.eqb_eq. congruence.
Qed.

Lemma Is_transitive_witness :
  MessageError_Is (messageError "f" "d")
    (error_MessageError (messageErrorWithCode "h" ErrVarBytesTooLong "j"))
  = Ok true.
Proof.
  apply (proj1 (Is_transitive 0 0 (messageError "f" "d")
                  (messageErrorWithCode "g" 0 "e")
                  (messageErrorWithCode "h" ErrVarBytesTooLong "j")));
    reflexivity.
Defined.

(** ** The text of a MessageError *)

(** X5. The text of a MessageError is empty only when its function name
    and its description are both empty; the text of the code it unwraps
    to is never empty. *)
Theorem MessageError_Error_empty (m : MessageError) :
  (MessageError_Error (Some m) = Ok ""
   <-> MessageError.Func m = "" /\ MessageError.Description m = "") /\
  ErrorCode_Error (MessageError.ErrorCode m) <> "".
Proof.
  split; [| apply ErrorCode_String_nonempty].
  destruct m as [f c d]. run. unfold fmt_v.
  destruct (String.eqb_spec f "") as [-> | Hf]; cbn.
  - split; [intros [= ->]; now split | intros [_ ->]; reflexivity].
  - split; [intros [= H] | intros [H _]; now contradict Hf].
    apply append_empty_iff in H as [H _]. now contradict Hf.
Qed.

(** X6. The text does not keep the boundary between function name and
    description: with a non-empty name [f], the pair of [f] and a
    description [g: d] reads the same as the pair of the name [f: g] and
    the description [d], whatever the two codes are. *)
Theorem MessageError_Error_ambiguous (f g d : string) (c c' : ErrorCode) :
  f <> "" ->
  MessageError_Error (messageErrorWithCode f c (g +:+ ": " +:+ d))
  = MessageError_Error (messageErrorWithCode (f +:+ ": " +:+ g) c' d).
Proof.
  intros Hf. run. unfold fmt_v.
  apply String.eqb_neq in Hf. rewrite Hf. cbn.
  assert (Hfg : String.eqb (f +:+ ": " +:+ g) "" = false).
  { apply String.eqb_neq. intros [H _]%append_empty_iff.
    now apply String.eqb_neq in Hf. }
  rewrite Hfg. cbn. f_equal.
  now rewrite !append_assoc.
Qed.

Lemma MessageError_Error_ambiguous_witness :
  MessageError_Error
    (messageErrorWithCode "ReadMessage" ErrInvalidMsg "header: short read")
  = MessageError_Error
      (messageErrorWithCode "ReadMessage: header" ErrVarBytesTooLong
         "short read").
Proof.
  apply (MessageError_Error_ambiguous "ReadMessage" "header" "short read"
           ErrInvalidMsg ErrVarBytesTooLong).
  discriminate.
Defined.

(** ** Where the methods fault *)

(** X7. ErrorCode.Is faults on exactly one target, the nil
    [*MessageError].  MessageError.Is faults exactly when the target is a
    [*MessageError] or an [ErrorCode] and the receiver or the target is a
    nil pointer; on any other target it returns even through a nil
    receiver. *)
Theorem Is_faults_exactly (c : ErrorCode) (e : option MessageError)
    (target : error) :
  (returns (ErrorCode_Is c target) = false
   <-> target = error_MessageError None) /\
  (returns (MessageError_Is e target) = false
   <-> unrelated_shape target = false /\
       (e = None \/ target = error_MessageError None)).
Proof.
  split.
  - destruct target as [| [m |] | c' | ty msg]; cbn;
      split; intros H; first [discriminate H | reflexivity].
  - destruct e as [m |], target as [| [m' |] | c' | ty msg]; cbn;
      intuition (discriminate || auto).
Qed.

(** X8. Rendering and unwrapping read a field of the receiver straight
    away: each of them faults with a nil dereference exactly when the
    receiver is the nil pointer, and returns for every other receiver. *)
Theorem Error_Unwrap_fault_on_nil (e : option MessageError) :
  (MessageError_Error e = Panic nil_dereference <-> e = None) /\
  (returns (MessageError_Error e) = true <-> e <> None) /\
  (MessageError_Unwrap e = Panic nil_dereference <-> e = None) /\
  (returns (MessageError_Unwrap e) = true <-> e <> None).
Proof.
  destruct e as [[f c d] |]; run.
  - destruct (String.eqb f ""); cbn; repeat split;
      intros H; try discriminate H; try reflexivity; now contradict H.
  - repeat split; intros H; try discriminate H; try reflexivity;
      now contradict H.
Qed.
